(** * Sqrat bytecode buffer: a shallow embedding of [sqratBytecode.h]

    The header defines [class Bytecode], a heap-backed byte buffer with a
    sequential read position, and the two callbacks [BytecodeReader] and
    [BytecodeWriter] handed to [sq_readclosure] / [sq_writeclosure].

    The embedding keeps what the C++ code manipulates:
    - [size_t] values are integers modulo [2^64], the wrap-around written out;
    - [SQInteger] is a signed integer of [sq_bits] bits ([squirrel.h] picks the
      width), conversions to and from [size_t] are the modular ones;
    - [m_data] is a pointer that is null, points to a live heap block, or
      dangles after [free]; a block is a list of cells, a cell holding a byte
      or nothing yet (fresh from [malloc]);
    - an operation of the C library applied outside its contract (a second
      [free], a [memcpy] running off a block) has no defined result;
    - [<stdio.h>] is an oracle saying what each path opens to. *)

From Stdlib Require Import String ZArith List Lia Bool.
From Stdlib Require Import Init.Byte.
Import ListNotations.
Local Open Scope Z_scope.

Module Sqrat.

(** ** Results of C library calls *)

Inductive outcome (A : Type) : Type :=
| Ok (a : A)
| Undefined.
Arguments Ok {A} a.
Arguments Undefined {A}.

Definition bind {A B : Type} (m : outcome A) (k : A -> outcome B) : outcome B :=
  match m with
  | Ok a => k a
  | Undefined => Undefined
  end.

Notation "x <- m ;; k" := (bind m (fun x => k))
  (at level 61, m at next level, right associativity).
Notation "' pat <- m ;; k" :=
  (bind m (fun x => match x with pat => k end))
  (at level 61, pat pattern, m at next level, right associativity).

(** ** [size_t] *)

Definition SIZE_BITS : Z := 64.
Definition SIZE_MOD : Z := 2 ^ SIZE_BITS.
Definition SIZE_MAX : Z := SIZE_MOD - 1.

(** [static_cast<size_t>(z)] and the result of unsigned arithmetic. *)
Definition to_size_t (z : Z) : Z := z mod SIZE_MOD.

(** ** Heap blocks and pointers *)

Definition cell : Type := option byte.

Inductive pointer : Type :=
| Null
| Live (blk : list cell)
| Dangling.

Definition is_null (p : pointer) : bool :=
  match p with
  | Null => true
  | _ => false
  end.

Definition fresh (n : Z) : list cell := repeat None (Z.to_nat n).

(** [malloc(n)]: a new block of [n] cells; allocation does not fail, and a
    request for no bytes still yields a pointer that is not null. *)
Definition malloc (n : Z) : pointer := Live (fresh n).

(** [free(p)]: the variable that held [p] keeps its value and now dangles. *)
Definition free (p : pointer) : outcome pointer :=
  match p with
  | Null => Ok Null
  | Live _ => Ok Dangling
  | Dangling => Undefined
  end.

(** [realloc(p, n)]: the first [min(old, n)] cells survive. *)
Definition realloc (p : pointer) (n : Z) : outcome pointer :=
  match p with
  | Null => Ok (malloc n)
  | Live blk =>
      Ok (Live (firstn (Z.to_nat n) blk
                ++ fresh (n - Z.of_nat (length blk))))
  | Dangling => Undefined
  end.

(** Reading [n] cells at offset [off] of the block behind [p]. *)
Definition load (p : pointer) (off n : Z) : outcome (list cell) :=
  match p with
  | Live blk =>
      if (0 <=? off) && (0 <=? n) && (off + n <=? Z.of_nat (length blk))
      then Ok (firstn (Z.to_nat n) (skipn (Z.to_nat off) blk))
      else Undefined
  | _ => Undefined
  end.

(** Overwriting the cells at offset [off] of the block behind [p]. *)
Definition store (p : pointer) (off : Z) (cs : list cell) : outcome pointer :=
  match p with
  | Live blk =>
      if (0 <=? off) && (off + Z.of_nat (length cs) <=? Z.of_nat (length blk))
      then Ok (Live (firstn (Z.to_nat off) blk ++ cs
                     ++ skipn (Z.to_nat off + length cs) blk))
      else Undefined
  | _ => Undefined
  end.

(** [memcpy(dst + doff, src + soff, n)]; source and destination are
    separate objects. *)
Definition memcpy (dst : pointer) (doff : Z) (src : pointer) (soff : Z)
    (n : Z) : outcome pointer :=
  cs <- load src soff n ;;
  store dst doff cs.

(** ** [<stdio.h>] *)

(** A stream opened with ["rb"]: what [ftell] reports at the end of the
    stream, and the bytes [fread] is able to deliver from its start. *)
Record InFile : Type := {
  ftell_end : Z;
  contents : list byte
}.

(** A stream opened with ["wb"]: how many bytes it accepts. *)
Record OutFile : Type := {
  room : nat
}.

Record Stdio : Type := {
  fopen_rb : string -> option InFile;
  fopen_wb : string -> option OutFile
}.

(** [fread(p, 1, n, f)] on a stream positioned at its start. *)
Definition fread (p : pointer) (n : Z) (f : InFile) : outcome (Z * pointer) :=
  let got := firstn (Z.to_nat n) (contents f) in
  p' <- store p 0 (map Some got) ;;
  Ok (Z.of_nat (length got), p').

(** [fwrite(p, 1, n, f)]. *)
Definition fwrite (p : pointer) (n : Z) (f : OutFile) : outcome Z :=
  _ <- load p 0 n ;;
  Ok (Z.min n (Z.of_nat (room f))).

(** ** [squirrel.h] *)

(** Modelled from the spec: [squirrel.h] is not part of the sources; the
    spec calls [SQRESULT] a binary success/failure result, [SQ_OK] the
    success and [SQ_ERROR] the failure. *)
Inductive SQRESULT : Type :=
| SQ_OK
| SQ_ERROR.

Section WithSQInteger.

(** The width of [SQInteger], which [squirrel.h] fixes ([int], or a 64-bit
    integer under [_SQ64]). *)
Variable sq_bits : positive.

Definition SQ_MOD : Z := 2 ^ Z.pos sq_bits.
Definition SQ_MAX : Z := SQ_MOD / 2 - 1.

(** [static_cast<SQInteger>(z)]. *)
Definition to_SQInteger (z : Z) : Z :=
  (z + SQ_MOD / 2) mod SQ_MOD - SQ_MOD / 2.

(** ** [class Bytecode] *)

Record Bytecode : Type := {
  m_data : pointer;   (* Buffer holding bytecode *)
  m_size : Z;         (* Bytecode size *)
  m_readpos : Z       (* Current bytecode ReadData() position *)
}.

(** [Bytecode()] *)
Definition Bytecode_default : Bytecode :=
  {| m_data := Null; m_size := 0; m_readpos := 0 |}.

(** [if (m_data) free(m_data);] *)
Definition release (p : pointer) : outcome pointer :=
  if is_null p then Ok p else free p.

Definition SaveToFile (io : Stdio) (this : Bytecode) (filename : string)
  : outcome (SQRESULT * Bytecode) :=
  if is_null (m_data this) || (m_size this <=? 0) then Ok (SQ_ERROR, this)
  else
    match fopen_wb io filename with
    | Some ofile =>
        bytes_written <- fwrite (m_data this) (m_size this) ofile ;;
        if bytes_written =? m_size this then Ok (SQ_OK, this)
        else Ok (SQ_ERROR, this)
    | None => Ok (SQ_ERROR, this)
    end.

Definition LoadFromFile (io : Stdio) (this : Bytecode) (filename : string)
  : outcome (SQRESULT * Bytecode) :=
  p <- release (m_data this) ;;
  let this := {| m_data := p; m_size := m_size this;
                 m_readpos := m_readpos this |} in
  match fopen_rb io filename with
  | Some ifile =>
      let fsize := ftell_end ifile in
      if fsize =? 0 then Ok (SQ_ERROR, this)
      else
        let size := to_size_t fsize in
        '(bytes_read, p) <- fread (malloc size) size ifile ;;
        let this := {| m_data := p; m_size := size;
                       m_readpos := m_readpos this |} in
        if bytes_read =? size then Ok (SQ_OK, this)
        else Ok (SQ_ERROR, this)
  | None => Ok (SQ_ERROR, this)
  end.

Definition Data (this : Bytecode) : pointer := m_data this.

Definition SetData (this : Bytecode) (data : pointer) (size : Z)
  : outcome (SQRESULT * Bytecode) :=
  _ <- release (m_data this) ;;
  p <- memcpy (malloc size) 0 data 0 size ;;
  Ok (SQ_OK, {| m_data := p; m_size := size; m_readpos := 0 |}).

Definition AppendData (this : Bytecode) (data : pointer) (size : Z)
  : outcome (Z * Bytecode) :=
  p <- (if is_null (m_data this) then Ok (malloc size)
        else realloc (m_data this) (to_size_t (m_size this + size))) ;;
  p <- memcpy p (m_size this) data 0 size ;;
  Ok (to_SQInteger size,
      {| m_data := p; m_size := to_size_t (m_size this + size);
         m_readpos := m_readpos this |}).

(** The local [bytes_to_read] of [ReadData]. *)
Definition bytes_to_read (this : Bytecode) (size : Z) : Z :=
  if to_size_t (m_readpos this + size) <=? m_size this then size
  else to_size_t (m_size this - m_readpos this).

Definition ReadData (this : Bytecode) (data : pointer) (size : Z)
  : outcome (Z * pointer * Bytecode) :=
  if is_null (m_data this) || (m_size this =? 0)
     || (m_readpos this =? m_size this)
  then Ok (-1, data, this)
  else
    let n := bytes_to_read this size in
    data <- memcpy data 0 (m_data this) (m_readpos this) n ;;
    Ok (to_SQInteger n, data,
        {| m_data := m_data this; m_size := m_size this;
           m_readpos := to_size_t (m_readpos this + n) |}).

Definition Size (this : Bytecode) : Z := m_size this.

(** ** The callbacks *)

(** [user_data] is the [Bytecode] the pointer is cast to; [size] is an
    [SQInteger]. *)
Definition BytecodeReader (user_data : Bytecode) (data : pointer) (size : Z)
  : outcome (Z * pointer * Bytecode) :=
  ReadData user_data data (to_size_t size).

Definition BytecodeWriter (user_data : Bytecode) (data : pointer) (size : Z)
  : outcome (Z * Bytecode) :=
  AppendData user_data data (to_size_t size).

(** ** A client of [ReadData] *)

(** Draining: one [ReadData] per requested size, always into the same
    receiving buffer, collecting what each call delivered, until a call
    answers [-1].  The flag tells whether that answer came. *)
Fixpoint drain (this : Bytecode) (data : pointer) (sizes : list Z)
  : outcome (list cell * bool * Bytecode) :=
  match sizes with
  | [] => Ok ([], false, this)
  | size :: sizes =>
      '(got, data, this) <- ReadData this data size ;;
      if got =? -1 then Ok ([], true, this)
      else
        chunk <- load data 0 got ;;
        '(rest, done, this) <- drain this data sizes ;;
        Ok (chunk ++ rest, done, this)
  end.

(** ** Observations and invariants *)

Definition is_dangling (p : pointer) : bool :=
  match p with
  | Dangling => true
  | _ => false
  end.

(** The bytes the buffer holds. *)
Definition content (this : Bytecode) : list cell :=
  match m_data this with
  | Live blk => blk
  | _ => []
  end.

(** "No content": the test [!m_data || m_size == 0]. *)
Definition empty (this : Bytecode) : bool :=
  is_null (m_data this) || (m_size this =? 0).

(** The representation invariant: both counters are [size_t] values, and
    [m_data] is null with no bytes counted or points to a live block of
    exactly [m_size] cells. *)
Definition validb (this : Bytecode) : bool :=
  (0 <=? m_size this) && (m_size this <? SIZE_MOD)
  && (0 <=? m_readpos this) && (m_readpos this <? SIZE_MOD)
  && match m_data this with
     | Null => m_size this =? 0
     | Live blk => Z.of_nat (length blk) =? m_size this
     | Dangling => false
     end.

Definition valid (this : Bytecode) : Prop := validb this = true.

(** [read_cursor <= size]. *)
Definition cursor_ok (this : Bytecode) : Prop :=
  m_readpos this <= m_size this.

(** The write is short: [fwrite] reports a count other than [m_size]. *)
Definition short_write (this : Bytecode) (ofile : OutFile) : Prop :=
  exists w, fwrite (m_data this) (m_size this) ofile = Ok w /\ w <> m_size this.

(** A receiving or source buffer holding the bytes [bs]. *)
Definition bytes (bs : list byte) : pointer := Live (map Some bs).

Definition len {A : Type} (l : list A) : Z := Z.of_nat (length l).

(** A request the client of [drain] may make with a receiving buffer of
    [cap] bytes: at least one byte, no more than the buffer takes, and a
    count an [SQInteger] can carry back. *)
Definition request_ok (cap size : Z) : bool :=
  (0 <? size) && (size <=? cap) && (size <=? SQ_MAX).

(** ** Sample data *)

Definition abc : list byte := [x01; x02; x03].

(** ["code.nut"] opens for reading as a four-byte file, ["tiny"] as a
    one-byte file, nothing else opens for reading; only ["out"] opens for
    writing, with room for eight bytes. *)
Definition sample_io : Stdio :=
  {| fopen_rb := fun name =>
       if String.eqb name "code.nut"
       then Some {| ftell_end := 4; contents := [x0a; x0b; x0c; x0d] |}
       else if String.eqb name "tiny"
       then Some {| ftell_end := 1; contents := [x2a] |}
       else None;
     fopen_wb := fun name =>
       if String.eqb name "out" then Some {| room := 8 |} else None |}.

(** A two-byte receiving buffer, not yet written. *)
Definition dest2 : pointer := Live [None; None].

(** A buffer holding the three bytes of [abc], none read yet, and one
    holding a single byte that has been read. *)
Definition holding_abc : Bytecode :=
  {| m_data := bytes abc; m_size := 3; m_readpos := 0 |}.

Definition one_read : Bytecode :=
  {| m_data := Live [Some x2a]; m_size := 1; m_readpos := 1 |}.

(** ** The destructor *)

(** [~Bytecode()] *)
Definition Bytecode_destructor (this : Bytecode) : outcome unit :=
  _ <- release (m_data this) ;;
  Ok tt.

(** Neither opening nor finding bytes: the two early returns of
    [LoadFromFile]. *)
Definition nothing_to_load (io : Stdio) (filename : string) : Prop :=
  fopen_rb io filename = None \/
  exists ifile, fopen_rb io filename = Some ifile /\ ftell_end ifile = 0.

(** ** Streams that disappoint *)

(** ["cut"] opens as a file that [ftell] measures at four bytes and of
    which [fread] delivers two; ["void"] opens as a file of no bytes;
    nothing else opens. *)
Definition faulty_io : Stdio :=
  {| fopen_rb := fun name =>
       if String.eqb name "cut"
       then Some {| ftell_end := 4; contents := [x0a; x0b] |}
       else if String.eqb name "void"
       then Some {| ftell_end := 0; contents := [] |}
       else None;
     fopen_wb := fun _ => None |}.

(** A buffer of three bytes whose read position was left at 5. *)
Definition stale_cursor : Bytecode :=
  {| m_data := bytes abc; m_size := 3; m_readpos := 5 |}.

(** * Properties *)

(** ** Machine arithmetic *)

Lemma SIZE_MOD_pos : 0 < SIZE_MOD.
Proof. reflexivity. Qed.

Lemma to_size_t_small (z : Z) : 0 <= z < SIZE_MOD -> to_size_t z = z.
Proof. intros H. unfold to_size_t. now apply Z.mod_small. Qed.

Lemma SQ_MOD_half : SQ_MOD = 2 * (SQ_MOD / 2) /\ 0 < SQ_MOD / 2.
Proof.
  unfold SQ_MOD.
  replace (Z.pos sq_bits) with (Z.succ (Z.pos sq_bits - 1)) by lia.
  rewrite Z.pow_succ_r by lia.
  rewrite Z.mul_comm, Z.div_mul by lia.
  split; [ring | apply Z.pow_pos_nonneg; lia].
Qed.

Lemma to_SQInteger_small (z : Z) :
  - (SQ_MAX + 1) <= z <= SQ_MAX -> to_SQInteger z = z.
Proof.
  unfold to_SQInteger, SQ_MAX. intros H.
  destruct SQ_MOD_half as [E P].
  rewrite Z.mod_small; lia.
Qed.

(** ** Blocks *)

Lemma len_nonneg {A : Type} (l : list A) : 0 <= len l.
Proof. unfold len. lia. Qed.

Lemma len_app {A : Type} (l k : list A) : len (l ++ k) = len l + len k.
Proof. unfold len. rewrite length_app. lia. Qed.

Lemma len_map {A B : Type} (f : A -> B) (l : list A) : len (map f l) = len l.
Proof. unfold len. now rewrite length_map. Qed.

Lemma fresh_length (n : Z) : length (fresh n) = Z.to_nat n.
Proof. apply repeat_length. Qed.

Lemma load_ok (blk : list cell) (off n : Z) :
  0 <= off -> 0 <= n -> off + n <= len blk ->
  load (Live blk) off n
  = Ok (firstn (Z.to_nat n) (skipn (Z.to_nat off) blk)).
Proof.
  intros Ho Hn Hb. unfold load, len in *.
  replace (0 <=? off) with true by (symmetry; apply Z.leb_le; lia).
  replace (0 <=? n) with true by (symmetry; apply Z.leb_le; lia).
  replace (off + n <=? Z.of_nat (length blk)) with true
    by (symmetry; apply Z.leb_le; lia).
  reflexivity.
Qed.

Lemma store_ok (blk cs : list cell) (off : Z) :
  0 <= off -> off + len cs <= len blk ->
  store (Live blk) off cs
  = Ok (Live (firstn (Z.to_nat off) blk ++ cs
              ++ skipn (Z.to_nat off + length cs) blk)).
Proof.
  intros Ho Hb. unfold store, len in *.
  replace (0 <=? off) with true by (symmetry; apply Z.leb_le; lia).
  replace (off + Z.of_nat (length cs) <=? Z.of_nat (length blk)) with true
    by (symmetry; apply Z.leb_le; lia).
  reflexivity.
Qed.

Lemma load_whole (blk : list cell) : load (Live blk) 0 (len blk) = Ok blk.
Proof.
  rewrite load_ok; try (pose proof (len_nonneg blk); lia).
  unfold len. rewrite Nat2Z.id. simpl. now rewrite firstn_all.
Qed.

(** Filling a block fresh from [malloc] from its start to its end. *)
Lemma store_fresh (cs : list cell) :
  store (malloc (len cs)) 0 cs = Ok (Live cs).
Proof.
  unfold malloc. rewrite store_ok.
  - simpl. rewrite skipn_all2 by (rewrite fresh_length; unfold len; lia).
    now rewrite app_nil_r.
  - lia.
  - unfold len. rewrite fresh_length. lia.
Qed.

Lemma memcpy_fresh (src : list cell) (n : Z) :
  0 <= n <= len src ->
  memcpy (malloc n) 0 (Live src) 0 n = Ok (Live (firstn (Z.to_nat n) src)).
Proof.
  intros H. unfold memcpy. rewrite load_ok by lia. cbn [bind].
  change (Z.to_nat 0) with 0%nat. rewrite skipn_O.
  pose proof (store_fresh (firstn (Z.to_nat n) src)) as S.
  replace (len (firstn (Z.to_nat n) src)) with n in S; [exact S |].
  unfold len in *. rewrite length_firstn. lia.
Qed.

(** ** The representation invariant *)

Lemma valid_inv (this : Bytecode) :
  valid this ->
  0 <= m_size this < SIZE_MOD /\ 0 <= m_readpos this < SIZE_MOD /\
  (m_data this = Null /\ m_size this = 0
   \/ m_data this = Live (content this) /\ len (content this) = m_size this).
Proof.
  unfold valid, validb, content, len. intros H.
  repeat (apply andb_prop in H; destruct H as [H ?]).
  destruct (m_data this); try discriminate;
    (split; [lia | split; [lia |]]); [left | right]; split;
    try reflexivity; lia.
Qed.

Lemma valid_not_dangling (this : Bytecode) :
  valid this -> is_dangling (m_data this) = false.
Proof.
  intros H. destruct (valid_inv this H) as (_ & _ & [[E _] | [E _]]);
    now rewrite E.
Qed.

Lemma release_ok (p : pointer) :
  is_dangling p = false ->
  release p = Ok (if is_null p then Null else Dangling).
Proof. destruct p; intros H; try discriminate; reflexivity. Qed.

(** ** [SetData] *)

(** C8: from any prior state whose pointer does not dangle and any source
    holding at least [size] bytes, [SetData] answers [SQ_OK] and leaves
    exactly the first [size] source bytes as content, whatever was held
    before, with the read position 0 and [Size()] equal to [size]. *)
Theorem SetData_replaces (this : Bytecode) (src : list cell) (size : Z) :
  is_dangling (m_data this) = false ->
  0 <= size <= len src ->
  exists this',
    SetData this (Live src) size = Ok (SQ_OK, this') /\
    m_data this' = Live (firstn (Z.to_nat size) src) /\
    len (content this') = size /\
    Size this' = size /\
    m_readpos this' = 0.
Proof.
  intros Hd Hs. unfold SetData.
  rewrite (release_ok _ Hd). cbn [bind].
  rewrite (memcpy_fresh _ _ Hs). cbn [bind].
  eexists. split; [reflexivity |].
  unfold content, Size, len in *. cbn. rewrite length_firstn.
  repeat split; lia.
Qed.

(** ** [AppendData] *)

Lemma AppendData_run (this : Bytecode) (S : list byte) :
  valid this ->
  m_size this + len S < SIZE_MOD ->
  len S <= SQ_MAX ->
  AppendData this (bytes S) (len S)
  = Ok (len S, {| m_data := Live (content this ++ map Some S);
                  m_size := m_size this + len S;
                  m_readpos := m_readpos this |}).
Proof.
  intros Hv Hw Hq. pose proof (len_nonneg S) as HS.
  destruct (valid_inv this Hv) as (Hm & Hr & Hshape).
  assert (Hload : load (bytes S) 0 (len S) = Ok (map Some S)).
  { unfold bytes. rewrite <- (len_map Some S). apply load_whole. }
  unfold AppendData, memcpy. rewrite Hload.
  rewrite to_size_t_small by lia.
  rewrite to_SQInteger_small by (destruct SQ_MOD_half; unfold SQ_MAX in *; lia).
  destruct Hshape as [[E Z0] | [E L]]; rewrite E; cbn [is_null bind].
  - rewrite Z0. rewrite <- (len_map Some S) at 1.
    rewrite store_fresh. cbn [bind].
    unfold content. rewrite E. reflexivity.
  - unfold realloc. cbn [bind].
    rewrite firstn_all2 by (unfold len in *; lia).
    rewrite store_ok; try lia.
    + cbn [bind]. do 4 f_equal.
      rewrite firstn_app, firstn_all2 by (unfold len in *; lia).
      replace (Z.to_nat (m_size this) - length (content this))%nat
        with 0%nat by (unfold len in *; lia).
      rewrite firstn_O, app_nil_r.
      rewrite skipn_all2, app_nil_r; [reflexivity |].
      rewrite length_app, fresh_length, length_map. unfold len in *. lia.
    + rewrite len_app, len_map. unfold len at 3. rewrite fresh_length.
      unfold len in *. lia.
Qed.

(** C6: on a valid buffer, appending the byte sequence [S] answers
    [len S], adds [len S] to [Size()], keeps the bytes already held in
    front and puts [S] behind them, and leaves the read position alone.
    The sizes are taken to be representable: the new size as a [size_t],
    the answer as an [SQInteger]. *)
Theorem AppendData_appends (this : Bytecode) (S : list byte) :
  valid this ->
  m_size this + len S < SIZE_MOD ->
  len S <= SQ_MAX ->
  exists this',
    AppendData this (bytes S) (len S) = Ok (len S, this') /\
    Size this' = Size this + len S /\
    firstn (Z.to_nat (Size this)) (content this') = content this /\
    skipn (Z.to_nat (Size this)) (content this') = map Some S /\
    m_readpos this' = m_readpos this.
Proof.
  intros Hv Hw Hq. rewrite (AppendData_run this S Hv Hw Hq).
  eexists. split; [reflexivity |].
  assert (L : length (content this) = Z.to_nat (Size this)).
  { unfold Size. destruct (valid_inv this Hv) as (_ & _ & [[E Z0] | [E L]]).
    - unfold content. rewrite E, Z0. reflexivity.
    - unfold len in L. lia. }
  rewrite <- L. set (held := content this).
  unfold content, Size. cbn [m_data m_size m_readpos]. repeat split.
  - rewrite firstn_app, firstn_all, Nat.sub_diag, firstn_O. apply app_nil_r.
  - rewrite skipn_app, skipn_all, Nat.sub_diag, skipn_O. reflexivity.
Qed.

(** ** [SaveToFile] *)

Lemma fwrite_valid (this : Bytecode) (ofile : OutFile) :
  valid this ->
  empty this = false ->
  fwrite (m_data this) (m_size this) ofile
  = Ok (Z.min (m_size this) (Z.of_nat (room ofile))).
Proof.
  intros Hv He. unfold empty in He.
  destruct (valid_inv this Hv) as (_ & _ & [[E _] | [E L]]).
  - rewrite E in He. discriminate.
  - unfold fwrite. rewrite E, <- L, load_whole. reflexivity.
Qed.

(** What a call on a valid buffer comes to, branch by branch. *)
Lemma SaveToFile_run (io : Stdio) (this : Bytecode) (filename : string) :
  valid this ->
  SaveToFile io this filename
  = Ok (if empty this then SQ_ERROR
        else match fopen_wb io filename with
             | Some ofile =>
                 if Z.min (m_size this) (Z.of_nat (room ofile)) =? m_size this
                 then SQ_OK else SQ_ERROR
             | None => SQ_ERROR
             end,
        this).
Proof.
  intros Hv. unfold SaveToFile.
  destruct (valid_inv this Hv) as (Hm & _ & _).
  replace (m_size this <=? 0) with (m_size this =? 0)
    by (destruct (Z.eqb_spec (m_size this) 0), (Z.leb_spec (m_size this) 0);
        try reflexivity; lia).
  fold (empty this). destruct (empty this) eqn:He; [reflexivity |].
  destruct (fopen_wb io filename) as [ofile |]; [| reflexivity].
  rewrite (fwrite_valid this ofile Hv He). cbn [bind].
  now destruct (_ =? _).
Qed.

(** C5: on a valid buffer [SaveToFile] always answers with a status; the
    status is [SQ_OK] exactly when the buffer is not empty, the file opened
    and [fwrite] reported [m_size] bytes, and [SQ_ERROR] exactly when the
    buffer is empty, the file did not open, or the write was short.  A
    buffer fresh from the constructor gets [SQ_ERROR]. *)
Theorem SaveToFile_status (io : Stdio) (this : Bytecode) (filename : string) :
  valid this ->
  (exists r,
     SaveToFile io this filename = Ok (r, this) /\
     (r = SQ_OK <->
      empty this = false /\
      exists ofile, fopen_wb io filename = Some ofile /\
        fwrite (m_data this) (m_size this) ofile = Ok (m_size this)) /\
     (r = SQ_ERROR <->
      empty this = true \/ fopen_wb io filename = None \/
      exists ofile, fopen_wb io filename = Some ofile /\
        short_write this ofile)) /\
  SaveToFile io Bytecode_default filename = Ok (SQ_ERROR, Bytecode_default).
Proof.
  intros Hv. split; [| reflexivity].
  rewrite (SaveToFile_run io this filename Hv).
  eexists. split; [reflexivity |]. unfold short_write.
  destruct (empty this) eqn:He.
  { split; split; try discriminate; auto. intros [? _]. discriminate. }
  destruct (fopen_wb io filename) as [ofile |].
  2:{ split; split; try discriminate; auto.
      intros (_ & ? & ? & _). discriminate. }
  pose proof (fwrite_valid this ofile Hv He) as Hw.
  destruct (Z.eqb_spec (Z.min (m_size this) (Z.of_nat (room ofile)))
              (m_size this)) as [Eq | Ne].
  - split; split; try discriminate; auto.
    + intros _. split; [reflexivity |]. exists ofile. split; [reflexivity |].
      now rewrite Hw, Eq.
    + intros [? | [? | (o & Ho & w & Hfw & Hne)]]; try discriminate.
      inversion Ho; subst o. rewrite Hw in Hfw. inversion Hfw. congruence.
  - split; split; try discriminate; auto.
    + intros (_ & o & Ho & Hfw). inversion Ho; subst o.
      rewrite Hw in Hfw. inversion Hfw. contradiction.
    + intros _. right. right. exists ofile. split; [reflexivity |].
      eexists. split; [exact Hw | exact Ne].
Qed.

(** C10: on a valid buffer, whatever the stream library answers and
    whichever status comes back, [SaveToFile] hands the buffer back with
    its storage, its size and its read position as they were. *)
Theorem SaveToFile_frame (io : Stdio) (this : Bytecode) (filename : string) :
  valid this ->
  exists r this',
    SaveToFile io this filename = Ok (r, this') /\
    m_data this' = m_data this /\
    m_size this' = m_size this /\
    m_readpos this' = m_readpos this.
Proof.
  intros Hv. rewrite (SaveToFile_run io this filename Hv).
  do 2 eexists. repeat split.
Qed.

(** ** The callbacks *)

(** C9: each callback is its method applied to the same buffer and the
    same data pointer, with the count converted to [size_t]: the answer
    (the [-1] of [ReadData] included) and the buffer afterwards are those of
    the method; for a count that already is a [size_t] value the conversion
    changes nothing. *)
Theorem callbacks_forward (user_data : Bytecode) (data : pointer) (size : Z) :
  (BytecodeReader user_data data size
   = ReadData user_data data (to_size_t size) /\
   BytecodeWriter user_data data size
   = AppendData user_data data (to_size_t size)) /\
  (0 <= size < SIZE_MOD ->
   BytecodeReader user_data data size = ReadData user_data data size /\
   BytecodeWriter user_data data size = AppendData user_data data size).
Proof.
  split; [split; reflexivity |].
  intros H. unfold BytecodeReader, BytecodeWriter.
  rewrite (to_size_t_small size H). split; reflexivity.
Qed.

(** ** [ReadData] *)

(** With no content, or with the read position at the end, the answer is
    [-1] and nothing moves. *)
Lemma ReadData_no_data (this : Bytecode) (data : pointer) (size : Z) :
  empty this = true \/ m_readpos this = m_size this ->
  ReadData this data size = Ok (-1, data, this).
Proof.
  unfold ReadData, empty. intros [He | Hp].
  - now rewrite He.
  - rewrite Hp, Z.eqb_refl, orb_true_r. reflexivity.
Qed.

(** Where [m_readpos + size] does not wrap, [bytes_to_read] is the smaller
    of the request and what remains. *)
Lemma bytes_to_read_min (this : Bytecode) (size : Z) :
  valid this -> cursor_ok this ->
  0 <= size -> m_readpos this + size < SIZE_MOD ->
  bytes_to_read this size = Z.min size (m_size this - m_readpos this).
Proof.
  intros Hv Hc Hs Hw. destruct (valid_inv this Hv) as (Hm & Hr & _).
  unfold cursor_ok in Hc. unfold bytes_to_read.
  rewrite to_size_t_small by lia.
  destruct (Z.leb_spec (m_readpos this + size) (m_size this)); [lia |].
  rewrite to_size_t_small by lia. lia.
Qed.

(** With content left and a request that does not wrap, the call delivers
    the smaller of the request and what remains. *)
Lemma ReadData_some (this : Bytecode) (dest : list cell) (size : Z) :
  valid this -> cursor_ok this ->
  empty this = false -> m_readpos this <> m_size this ->
  0 <= size -> m_readpos this + size < SIZE_MOD ->
  Z.min size (m_size this - m_readpos this) <= len dest ->
  Z.min size (m_size this - m_readpos this) <= SQ_MAX ->
  let n := Z.min size (m_size this - m_readpos this) in
  let chunk :=
    firstn (Z.to_nat n) (skipn (Z.to_nat (m_readpos this)) (content this)) in
  ReadData this (Live dest) size
  = Ok (n, Live (chunk ++ skipn (Z.to_nat n) dest),
        {| m_data := m_data this; m_size := m_size this;
           m_readpos := m_readpos this + n |})
  /\ len chunk = n.
Proof.
  intros Hv Hc He Hp Hs Hw Hd Hq n chunk.
  destruct (valid_inv this Hv) as (Hm & Hr & Hshape).
  unfold cursor_ok in Hc.
  assert (Hn : 0 <= n <= m_size this - m_readpos this) by (subst n; lia).
  destruct Hshape as [[E _] | [E L]];
    [unfold empty in He; rewrite E in He; discriminate |].
  assert (Hlen : len chunk = n).
  { subst chunk. unfold len in *. rewrite length_firstn, length_skipn. lia. }
  split; [| exact Hlen].
  unfold ReadData. fold (empty this). rewrite He.
  replace (m_readpos this =? m_size this) with false
    by (symmetry; apply Z.eqb_neq; exact Hp).
  cbn [orb]. rewrite (bytes_to_read_min this size Hv Hc Hs Hw). fold n.
  unfold memcpy. rewrite E at 1. rewrite load_ok by lia. fold chunk.
  cbn [bind]. rewrite store_ok by (subst n; lia). cbn [bind].
  rewrite to_SQInteger_small
    by (destruct SQ_MOD_half; unfold SQ_MAX in *; subst n; lia).
  rewrite to_size_t_small by lia.
  change (Z.to_nat 0) with 0%nat. rewrite firstn_O. cbn [app Nat.add].
  replace (length chunk) with (Z.to_nat n) by (unfold len in Hlen; lia).
  reflexivity.
Qed.

(** ** [SetData], then reading everything back *)

Lemma valid_live (blk : list cell) (pos : Z) :
  len blk < SIZE_MOD -> 0 <= pos < SIZE_MOD ->
  valid {| m_data := Live blk; m_size := len blk; m_readpos := pos |}.
Proof.
  intros Hb Hp. pose proof (len_nonneg blk). unfold valid, validb.
  cbn [m_data m_size m_readpos]. fold (len blk).
  repeat (apply andb_true_intro; split);
    try (apply Z.leb_le; lia); try (apply Z.ltb_lt; lia).
  apply Z.eqb_refl.
Qed.

Lemma drain_from (blk : list cell) (sizes : list Z) :
  forall (pos : Z) (dest : list cell),
    0 <= pos <= len blk ->
    len blk + len dest < SIZE_MOD ->
    forallb (request_ok (len dest)) sizes = true ->
    len blk - pos < len sizes ->
    drain {| m_data := Live blk; m_size := len blk; m_readpos := pos |}
          (Live dest) sizes
    = Ok (skipn (Z.to_nat pos) blk, true,
          {| m_data := Live blk; m_size := len blk; m_readpos := len blk |}).
Proof.
  induction sizes as [| size sizes IH]; intros pos dest Hpos Hmem Hreq Hlong.
  { unfold len in Hlong at 2. cbn in Hlong. lia. }
  pose proof (len_nonneg dest) as Hdest.
  cbn [forallb] in Hreq. apply andb_prop in Hreq. destruct Hreq as [Hk Hreq].
  unfold request_ok in Hk.
  apply andb_prop in Hk. destruct Hk as [Hk Hq].
  apply andb_prop in Hk. destruct Hk as [Hk0 Hkd].
  apply Z.ltb_lt in Hk0. apply Z.leb_le in Hkd. apply Z.leb_le in Hq.
  cbn [drain]. destruct (Z.eq_dec pos (len blk)) as [Eend | Hmore].
  - rewrite ReadData_no_data by (right; exact Eend). cbn [bind].
    change (-1 =? -1) with true. cbv iota. subst pos.
    unfold len. rewrite Nat2Z.id, skipn_all. reflexivity.
  - set (this := {| m_data := Live blk; m_size := len blk;
                    m_readpos := pos |}).
    assert (Hv : valid this) by (apply valid_live; lia).
    assert (He : empty this = false).
    { unfold empty, this. cbn [m_data m_size is_null orb].
      apply Z.eqb_neq. lia. }
    pose proof (ReadData_some this dest size Hv) as HR.
    unfold cursor_ok, content, this in HR.
    cbn [m_data m_size m_readpos] in HR. cbv zeta in HR.
    set (n := Z.min size (len blk - pos)) in *.
    set (chunk := firstn (Z.to_nat n) (skipn (Z.to_nat pos) blk)) in *.
    assert (Hn : 1 <= n <= size) by (subst n; lia).
    destruct HR as [HR HL]; try (subst n; lia); [exact He |].
    fold this in HR. rewrite HR. cbn [bind].
    replace (n =? -1) with false by (symmetry; apply Z.eqb_neq; lia).
    cbv iota.
    assert (Hdest' : len (chunk ++ skipn (Z.to_nat n) dest) = len dest).
    { rewrite len_app, HL. unfold len in *. rewrite length_skipn. lia. }
    rewrite load_ok by lia.
    change (Z.to_nat 0) with 0%nat. rewrite skipn_O.
    replace (Z.to_nat n) with (length chunk + 0)%nat at 1
      by (unfold len in HL; lia).
    rewrite firstn_app_2, firstn_O, app_nil_r. cbn [bind].
    rewrite IH; try lia.
    + cbn [bind]. do 3 f_equal.
      replace (Z.to_nat (pos + n)) with (Z.to_nat n + Z.to_nat pos)%nat by lia.
      rewrite <- skipn_skipn. apply firstn_skipn.
    + rewrite Hdest'. exact Hreq.
    + unfold len in Hlong at 2. cbn [length] in Hlong.
      unfold len at 2. lia.
Qed.

(** C7: from any prior state whose pointer does not dangle, [SetData] of
    the byte sequence [S] followed by draining reads gives back exactly [S],
    and the read that ends the draining answers [-1], as does every read
    after it.  The reads go into one receiving buffer, each asking for at
    least one byte and no more than the buffer takes; there are more reads
    than bytes, so that the draining gets to its end. *)
Theorem SetData_drain_roundtrip (this : Bytecode) (S : list byte)
    (dest : list cell) (sizes : list Z) :
  is_dangling (m_data this) = false ->
  len S + len dest < SIZE_MOD ->
  forallb (request_ok (len dest)) sizes = true ->
  len S < len sizes ->
  exists this1 this2,
    SetData this (bytes S) (len S) = Ok (SQ_OK, this1) /\
    drain this1 (Live dest) sizes = Ok (map Some S, true, this2) /\
    forall data size, ReadData this2 data size = Ok (-1, data, this2).
Proof.
  intros Hd Hmem Hreq Hlong.
  pose proof (len_nonneg S) as HS. pose proof (len_nonneg dest) as HD.
  unfold SetData, bytes. rewrite (release_ok _ Hd). cbn [bind].
  rewrite memcpy_fresh by (rewrite len_map; lia). cbn [bind].
  replace (Z.to_nat (len S)) with (length (map Some S))
    by (rewrite length_map; unfold len; lia).
  rewrite firstn_all. rewrite <- (len_map Some S).
  do 2 eexists. split; [reflexivity |]. split.
  - rewrite drain_from; rewrite ?len_map; try lia; [reflexivity | exact Hreq].
  - intros data size. apply ReadData_no_data. right. reflexivity.
Qed.

(** ** [LoadFromFile] *)


(** A path that does not open: the answer is [SQ_ERROR]; storage the
    buffer had is freed, and [m_data], [m_size] and [m_readpos] keep their
    values. *)
Lemma LoadFromFile_unopened (io : Stdio) (this : Bytecode) (filename : string) :
  is_dangling (m_data this) = false ->
  fopen_rb io filename = None ->
  LoadFromFile io this filename
  = Ok (SQ_ERROR, {| m_data := if is_null (m_data this) then Null
                               else Dangling;
                     m_size := m_size this;
                     m_readpos := m_readpos this |}).
Proof.
  intros Hd Ho. unfold LoadFromFile.
  rewrite (release_ok _ Hd), Ho. reflexivity.
Qed.

(** ** [m_readpos <= m_size] *)

Lemma bind_Ok {A B : Type} (m : outcome A) (k : A -> outcome B) (b : B) :
  bind m k = Ok b -> exists a, m = Ok a /\ k a = Ok b.
Proof. destruct m as [a |]; [eauto | discriminate]. Qed.

Lemma cursor_ok_default : cursor_ok Bytecode_default.
Proof. unfold cursor_ok. cbn. lia. Qed.

Lemma cursor_ok_SaveToFile (io : Stdio) (this this' : Bytecode)
    (filename : string) (r : SQRESULT) :
  SaveToFile io this filename = Ok (r, this') ->
  cursor_ok this -> cursor_ok this'.
Proof.
  unfold SaveToFile. intros H Hc.
  destruct (_ || _); [inversion H; subst; exact Hc |].
  destruct (fopen_wb io filename); [| inversion H; subst; exact Hc].
  apply bind_Ok in H. destruct H as (w & _ & H).
  destruct (w =? m_size this); inversion H; subst; exact Hc.
Qed.

Lemma cursor_ok_SetData (this this' : Bytecode) (data : pointer) (size : Z)
    (r : SQRESULT) :
  SetData this data size = Ok (r, this') ->
  0 <= size -> cursor_ok this'.
Proof.
  unfold SetData. intros H Hs.
  apply bind_Ok in H. destruct H as (_ & _ & H).
  apply bind_Ok in H. destruct H as (p & _ & H).
  inversion H. unfold cursor_ok. cbn. exact Hs.
Qed.

Lemma cursor_ok_AppendData (this this' : Bytecode) (data : pointer)
    (size r : Z) :
  AppendData this data size = Ok (r, this') ->
  0 <= m_size this -> 0 <= size -> m_size this + size < SIZE_MOD ->
  cursor_ok this -> cursor_ok this'.
Proof.
  unfold AppendData. intros H Hm Hs Hw Hc.
  apply bind_Ok in H. destruct H as (p & _ & H).
  apply bind_Ok in H. destruct H as (q & _ & H).
  inversion H. unfold cursor_ok in *. cbn.
  rewrite to_size_t_small by lia. lia.
Qed.

Lemma cursor_ok_ReadData (this this' : Bytecode) (data data' : pointer)
    (size r : Z) :
  ReadData this data size = Ok (r, data', this') ->
  valid this -> 0 <= size -> m_readpos this + size < SIZE_MOD ->
  cursor_ok this -> cursor_ok this'.
Proof.
  unfold ReadData. intros H Hv Hs Hw Hc.
  destruct (_ || _); [inversion H; subst; exact Hc |].
  apply bind_Ok in H. destruct H as (p & _ & H).
  inversion H. rewrite (bytes_to_read_min this size Hv Hc Hs Hw).
  destruct (valid_inv this Hv) as (Hm & Hr & _).
  unfold cursor_ok in *. cbn. rewrite to_size_t_small by lia. lia.
Qed.

(** * Further properties of the class *)

(** ** More on machine arithmetic and blocks *)

Lemma to_size_t_wrap_up (z : Z) :
  SIZE_MOD <= z < 2 * SIZE_MOD -> to_size_t z = z - SIZE_MOD.
Proof.
  intros H. unfold to_size_t.
  replace z with (z - SIZE_MOD + 1 * SIZE_MOD) at 1 by ring.
  rewrite Z.mod_add by (pose proof SIZE_MOD_pos; lia).
  apply Z.mod_small. lia.
Qed.

Lemma to_size_t_wrap_down (z : Z) :
  - SIZE_MOD <= z < 0 -> to_size_t z = z + SIZE_MOD.
Proof.
  intros H. unfold to_size_t.
  replace z with (z + SIZE_MOD + (-1) * SIZE_MOD) at 1 by ring.
  rewrite Z.mod_add by (pose proof SIZE_MOD_pos; lia).
  apply Z.mod_small. lia.
Qed.

Lemma load_off_block (blk : list cell) (off n : Z) :
  len blk < off + n -> load (Live blk) off n = Undefined.
Proof.
  intros H. unfold load, len in *.
  replace (off + n <=? Z.of_nat (length blk)) with false
    by (symmetry; apply Z.leb_gt; lia).
  now rewrite andb_false_r.
Qed.

Lemma skipn_fresh (k : nat) (n : Z) :
  Z.of_nat k <= n -> skipn k (fresh n) = fresh (n - Z.of_nat k).
Proof.
  intros H. unfold fresh.
  replace (Z.to_nat n) with (k + Z.to_nat (n - Z.of_nat k))%nat by lia.
  rewrite repeat_app, skipn_app, repeat_length, Nat.sub_diag, skipn_O.
  rewrite skipn_all2 by (rewrite repeat_length; lia). reflexivity.
Qed.

Lemma valid_len_content (this : Bytecode) :
  valid this -> len (content this) = m_size this.
Proof.
  intros Hv. destruct (valid_inv this Hv) as (_ & _ & [[E Z0] | [_ L]]).
  - unfold content. rewrite E, Z0. reflexivity.
  - exact L.
Qed.

(** A valid buffer is its three fields, the storage being null or the
    block of its content. *)
Lemma valid_shape (this : Bytecode) :
  valid this ->
  this = {| m_data := m_data this; m_size := len (content this);
            m_readpos := m_readpos this |}.
Proof.
  intros Hv. rewrite (valid_len_content this Hv). now destruct this.
Qed.

(** ** [ReadData], request by request *)

(** X1: on a valid buffer with the read position within the size, a
    request that does not wrap and whose answer fits the receiving buffer
    gets [-1] and changes nothing exactly when there is no content or the
    position is at the end; otherwise it copies the smaller of the request
    and the remainder to the front of the receiving buffer, whose other
    cells stay, advances the position by that count, which never passes the
    size, and answers the count, which is not negative. *)
Theorem ReadData_delivers (this : Bytecode) (dest : list cell) (size : Z) :
  valid this -> cursor_ok this ->
  0 <= size -> m_readpos this + size < SIZE_MOD ->
  Z.min size (m_size this - m_readpos this) <= len dest ->
  Z.min size (m_size this - m_readpos this) <= SQ_MAX ->
  let n := Z.min size (m_size this - m_readpos this) in
  if empty this || (m_readpos this =? m_size this)
  then ReadData this (Live dest) size = Ok (-1, Live dest, this)
  else
    ReadData this (Live dest) size
    = Ok (n,
          Live (firstn (Z.to_nat n)
                  (skipn (Z.to_nat (m_readpos this)) (content this))
                ++ skipn (Z.to_nat n) dest),
          {| m_data := m_data this; m_size := m_size this;
             m_readpos := m_readpos this + n |})
    /\ 0 <= n /\ m_readpos this + n <= m_size this.
Proof.
  intros Hv Hc Hs Hw Hd Hq n.
  destruct (empty this) eqn:He; cbn [orb].
  { apply ReadData_no_data. now left. }
  destruct (Z.eqb_spec (m_readpos this) (m_size this)) as [Hp | Hp].
  { apply ReadData_no_data. now right. }
  destruct (ReadData_some this dest size Hv Hc He Hp Hs Hw Hd Hq) as [HR _].
  unfold cursor_ok in Hc. split; [exact HR | subst n; lia].
Qed.

(** X2: a request for no bytes, on a valid buffer that has bytes left,
    answers 0, not [-1], and changes neither the buffer nor the receiving
    buffer. *)
Theorem ReadData_zero_request (this : Bytecode) (dest : list cell) :
  valid this -> cursor_ok this ->
  empty this = false -> m_readpos this <> m_size this ->
  ReadData this (Live dest) 0 = Ok (0, Live dest, this).
Proof.
  intros Hv Hc He Hp. unfold cursor_ok in Hc.
  destruct (valid_inv this Hv) as (Hm & Hr & _).
  pose proof (len_nonneg dest) as Hd. destruct SQ_MOD_half as [_ Hh].
  destruct (ReadData_some this dest 0 Hv Hc He Hp) as [HR _];
    try (unfold SQ_MAX; lia).
  rewrite HR. replace (Z.min 0 (m_size this - m_readpos this)) with 0 by lia.
  change (Z.to_nat 0) with 0%nat. rewrite firstn_O, skipn_O, Z.add_0_r.
  now destruct this.
Qed.

Lemma ReadData_off_block_on_wrap (this : Bytecode) (data : pointer)
    (size : Z) :
  valid this -> cursor_ok this ->
  empty this = false -> m_readpos this <> m_size this ->
  SIZE_MOD - m_readpos this <= size < SIZE_MOD ->
  bytes_to_read this size = size /\
  ReadData this data size = Undefined.
Proof.
  intros Hv Hc He Hp Hs. unfold cursor_ok in Hc.
  destruct (valid_inv this Hv) as (Hm & Hr & Hshape).
  assert (Hn : bytes_to_read this size = size).
  { unfold bytes_to_read. rewrite to_size_t_wrap_up by lia.
    destruct (Z.leb_spec (m_readpos this + size - SIZE_MOD) (m_size this));
      [reflexivity | lia]. }
  split; [exact Hn |].
  unfold ReadData. fold (empty this). rewrite He, Hn.
  replace (m_readpos this =? m_size this) with false
    by (symmetry; apply Z.eqb_neq; exact Hp).
  cbn [orb]. unfold memcpy.
  destruct Hshape as [[E _] | [E L]];
    [unfold empty in He; rewrite E in He; discriminate |].
  rewrite E, load_off_block by lia. reflexivity.
Qed.

(** X3: on a valid buffer with bytes left, a request so large that
    [m_readpos + size] wraps around passes the test
    [m_readpos + size <= m_size], and the [memcpy] of [size] bytes runs off
    the block, whatever the receiving buffer. *)
Theorem ReadData_wrapping_request (this : Bytecode) (data : pointer)
    (size : Z) :
  valid this -> cursor_ok this ->
  empty this = false -> m_readpos this <> m_size this ->
  SIZE_MOD - m_readpos this <= size < SIZE_MOD ->
  bytes_to_read this size = size /\
  ReadData this data size = Undefined.
Proof.
  intros Hv Hc He Hp Hs.
  destruct (ReadData_off_block_on_wrap this data size Hv Hc He Hp Hs)
    as [Hn Hu].
  split; [exact Hn | exact Hu].
Qed.

(** X4: on a valid buffer that has content and whose read position lies
    beyond its size, [m_size - m_readpos] wraps around, and every request
    that does not itself wrap sends [memcpy] off the block. *)
Theorem ReadData_stale_cursor (this : Bytecode) (data : pointer) (size : Z) :
  valid this ->
  empty this = false -> m_size this < m_readpos this ->
  0 <= size -> m_readpos this + size < SIZE_MOD ->
  bytes_to_read this size = SIZE_MOD - (m_readpos this - m_size this) /\
  ReadData this data size = Undefined.
Proof.
  intros Hv He Hp Hs Hw.
  destruct (valid_inv this Hv) as (Hm & Hr & Hshape).
  assert (Hn : bytes_to_read this size
               = SIZE_MOD - (m_readpos this - m_size this)).
  { unfold bytes_to_read. rewrite to_size_t_small by lia.
    destruct (Z.leb_spec (m_readpos this + size) (m_size this)); [lia |].
    rewrite to_size_t_wrap_down by lia. ring. }
  split; [exact Hn |].
  unfold ReadData. fold (empty this). rewrite He, Hn.
  replace (m_readpos this =? m_size this) with false
    by (symmetry; apply Z.eqb_neq; lia).
  cbn [orb]. unfold memcpy.
  destruct Hshape as [[E _] | [E L]];
    [unfold empty in He; rewrite E in He; discriminate |].
  rewrite E, load_off_block by lia. reflexivity.
Qed.

(** ** Reading on, appending on *)

(** X5: draining a valid buffer whose read position is within its size
    delivers exactly the bytes from the read position to the end, in
    order, ends on the answer [-1], and leaves the read position at the
    size with storage and size as they were. *)
Theorem drain_delivers_rest (this : Bytecode) (dest : list cell)
    (sizes : list Z) :
  valid this -> cursor_ok this ->
  m_size this + len dest < SIZE_MOD ->
  forallb (request_ok (len dest)) sizes = true ->
  m_size this - m_readpos this < len sizes ->
  drain this (Live dest) sizes
  = Ok (skipn (Z.to_nat (m_readpos this)) (content this), true,
        {| m_data := m_data this; m_size := m_size this;
           m_readpos := m_size this |}).
Proof.
  intros Hv Hc Hmem Hreq Hlong. unfold cursor_ok in Hc.
  destruct (valid_inv this Hv) as (Hm & Hr & [[E Z0] | [E L]]).
  - destruct sizes as [| size sizes];
      [unfold len in Hlong; cbn in Hlong; lia |].
    cbn [drain]. rewrite ReadData_no_data
      by (left; unfold empty; now rewrite E).
    cbn [bind]. change (-1 =? -1) with true. cbv iota.
    unfold content. rewrite E. destruct this as [d sz r]. cbn in *.
    subst d sz. replace r with 0 by lia. reflexivity.
  - rewrite (valid_shape this Hv) at 1. rewrite E, <- L.
    apply drain_from; rewrite ?L; try lia. exact Hreq.
Qed.

Lemma valid_appended (this : Bytecode) (S : list byte) :
  valid this -> m_size this + len S < SIZE_MOD ->
  valid {| m_data := Live (content this ++ map Some S);
           m_size := m_size this + len S;
           m_readpos := m_readpos this |}.
Proof.
  intros Hv Hw. destruct (valid_inv this Hv) as (Hm & Hr & _).
  pose proof (valid_len_content this Hv) as L.
  replace (m_size this + len S) with (len (content this ++ map Some S))
    by (rewrite len_app, len_map; lia).
  apply valid_live; [rewrite len_app, len_map |]; lia.
Qed.

(** X6: on a valid buffer, appending [S1] and then [S2] leaves the very
    buffer that appending [S1 ++ S2] in one call leaves; each call answers
    the length it was given. *)
Theorem AppendData_twice (this : Bytecode) (S1 S2 : list byte) :
  valid this ->
  m_size this + len S1 + len S2 < SIZE_MOD ->
  len S1 + len S2 <= SQ_MAX ->
  exists this1 this2,
    AppendData this (bytes S1) (len S1) = Ok (len S1, this1) /\
    AppendData this1 (bytes S2) (len S2) = Ok (len S2, this2) /\
    AppendData this (bytes (S1 ++ S2)) (len (S1 ++ S2))
    = Ok (len S1 + len S2, this2).
Proof.
  intros Hv Hw Hq.
  pose proof (len_nonneg S1) as H1. pose proof (len_nonneg S2) as H2.
  assert (Hv1 := valid_appended this S1 Hv ltac:(lia)).
  do 2 eexists. split; [apply AppendData_run; [exact Hv | lia | lia] |].
  split.
  - rewrite (AppendData_run _ S2 Hv1) by (cbn [m_size]; lia). reflexivity.
  - rewrite AppendData_run by (rewrite ?len_app; lia || exact Hv).
    unfold content at 2. cbn [m_data m_size m_readpos].
    rewrite len_app, map_app, app_assoc, Z.add_assoc. reflexivity.
Qed.

(** X7: bytes appended to a valid buffer are read back behind the ones
    not yet read: after appending [S], draining delivers what was left of
    the old content followed by [S], and ends at the new size.  On a buffer
    fresh from the constructor that is [S] itself. *)
Theorem AppendData_then_drain (this : Bytecode) (S : list byte)
    (dest : list cell) (sizes : list Z) :
  valid this -> cursor_ok this ->
  m_size this + len S + len dest < SIZE_MOD ->
  len S <= SQ_MAX ->
  forallb (request_ok (len dest)) sizes = true ->
  m_size this + len S - m_readpos this < len sizes ->
  exists this1 this2,
    AppendData this (bytes S) (len S) = Ok (len S, this1) /\
    drain this1 (Live dest) sizes
    = Ok (skipn (Z.to_nat (m_readpos this)) (content this ++ map Some S),
          true, this2) /\
    m_readpos this2 = Size this2 /\
    Size this2 = Size this + len S.
Proof.
  intros Hv Hc Hmem Hq Hreq Hlong. unfold cursor_ok in Hc.
  pose proof (len_nonneg S) as HS. pose proof (len_nonneg dest) as HD.
  destruct (valid_inv this Hv) as (Hm & Hr & _).
  pose proof (valid_len_content this Hv) as L.
  assert (Hlen : len (content this ++ map Some S) = m_size this + len S)
    by (rewrite len_app, len_map; lia).
  do 2 eexists. split; [apply AppendData_run; [exact Hv | lia | lia] |].
  rewrite <- Hlen. split; [| split].
  - apply drain_from; rewrite ?Hlen; try lia. exact Hreq.
  - reflexivity.
  - unfold Size. cbn [m_size]. exact Hlen.
Qed.


(** ** [LoadFromFile] when the file disappoints *)

Lemma LoadFromFile_early_return (io : Stdio) (this : Bytecode)
    (filename : string) :
  is_dangling (m_data this) = false ->
  nothing_to_load io filename ->
  LoadFromFile io this filename
  = Ok (SQ_ERROR, {| m_data := if is_null (m_data this) then Null
                               else Dangling;
                     m_size := m_size this;
                     m_readpos := m_readpos this |}).
Proof.
  intros Hd [Ho | (ifile & Ho & Hz)].
  - now apply LoadFromFile_unopened.
  - unfold LoadFromFile. rewrite (release_ok _ Hd), Ho, Hz. reflexivity.
Qed.

(** X9: when [fread] delivers fewer bytes than [ftell] measured, the
    answer is [SQ_ERROR], yet the buffer has been replaced: [Size()] is the
    measured length, the storage holds the delivered bytes followed by
    cells never written, and the read position is the old one. *)
Theorem LoadFromFile_short_read (io : Stdio) (this : Bytecode)
    (filename : string) (ifile : InFile) :
  is_dangling (m_data this) = false ->
  fopen_rb io filename = Some ifile ->
  0 < ftell_end ifile < SIZE_MOD ->
  len (contents ifile) < ftell_end ifile ->
  LoadFromFile io this filename
  = Ok (SQ_ERROR,
        {| m_data := Live (map Some (contents ifile)
                           ++ fresh (ftell_end ifile - len (contents ifile)));
           m_size := ftell_end ifile;
           m_readpos := m_readpos this |}).
Proof.
  intros Hd Ho Ht Hshort. unfold LoadFromFile.
  rewrite (release_ok _ Hd), Ho. cbn [bind m_readpos].
  replace (ftell_end ifile =? 0) with false
    by (symmetry; apply Z.eqb_neq; lia).
  rewrite to_size_t_small by lia. unfold fread, malloc.
  rewrite firstn_all2 by (unfold len in *; lia).
  rewrite store_ok;
    [| lia | rewrite len_map; unfold len at 2; rewrite fresh_length;
             unfold len in *; lia].
  cbn [bind]. change (Z.to_nat 0) with 0%nat.
  rewrite firstn_O, length_map. cbn [app Nat.add].
  rewrite skipn_fresh by (unfold len in *; lia).
  fold (len (contents ifile)).
  replace (len (contents ifile) =? ftell_end ifile) with false
    by (symmetry; apply Z.eqb_neq; lia).
  reflexivity.
Qed.

(** X10: on a buffer whose [m_data] is null, as the constructor leaves
    it, a load from a path that does not open, or that opens on an empty
    file, answers [SQ_ERROR] and leaves the buffer exactly as it was. *)
Theorem LoadFromFile_null_buffer_failure (io : Stdio) (this : Bytecode)
    (filename : string) :
  m_data this = Null ->
  nothing_to_load io filename ->
  LoadFromFile io this filename = Ok (SQ_ERROR, this).
Proof.
  intros E Hn. rewrite LoadFromFile_early_return by (now rewrite E || exact Hn).
  rewrite E. destruct this. cbn in *. now subst.
Qed.

(** X11: on a buffer that owns a block, a load from a path that does not
    open, or that opens on an empty file, answers [SQ_ERROR] after freeing
    the block and keeps the pointer and the size.  Before the call the
    destructor was fine; after it the destructor, [SetData], [AppendData]
    and a further [LoadFromFile] all hand the freed pointer to the
    allocator again. *)
Theorem LoadFromFile_failure_double_free (io : Stdio) (this : Bytecode)
    (filename : string) (blk : list cell) :
  m_data this = Live blk ->
  nothing_to_load io filename ->
  exists this',
    LoadFromFile io this filename = Ok (SQ_ERROR, this') /\
    Data this' = Dangling /\
    Size this' = Size this /\
    m_readpos this' = m_readpos this /\
    Bytecode_destructor this = Ok tt /\
    Bytecode_destructor this' = Undefined /\
    (forall data size, SetData this' data size = Undefined) /\
    (forall data size, AppendData this' data size = Undefined) /\
    (forall io' name, LoadFromFile io' this' name = Undefined).
Proof.
  intros E Hn. eexists. split.
  - rewrite LoadFromFile_early_return by (now rewrite E || exact Hn).
    rewrite E. reflexivity.
  - unfold Bytecode_destructor. rewrite E. repeat split.
Qed.

(** X13: [SetData] with a size of 0 replaces whatever the buffer held by
    nothing: [Size()] is 0, [SaveToFile] then answers [SQ_ERROR] for every
    path and stream, and [ReadData] answers [-1] for every request. *)
Theorem SetData_zero_bytes (this : Bytecode) (src : list cell) :
  is_dangling (m_data this) = false ->
  exists this',
    SetData this (Live src) 0 = Ok (SQ_OK, this') /\
    Size this' = 0 /\
    (forall io filename, SaveToFile io this' filename = Ok (SQ_ERROR, this')) /\
    (forall data size, ReadData this' data size = Ok (-1, data, this')).
Proof.
  intros Hd. unfold SetData. rewrite (release_ok _ Hd). cbn [bind].
  rewrite memcpy_fresh by (pose proof (len_nonneg src); lia). cbn [bind].
  eexists. split; [reflexivity |]. repeat split.
Qed.

(** ** The representation invariant, call by call *)

Lemma to_size_t_range (z : Z) : 0 <= to_size_t z < SIZE_MOD.
Proof. apply Z.mod_pos_bound, SIZE_MOD_pos. Qed.

Lemma load_inv (p : pointer) (off n : Z) (cs : list cell) :
  load p off n = Ok cs ->
  exists blk,
    p = Live blk /\ 0 <= off /\ 0 <= n /\ off + n <= len blk /\ len cs = n.
Proof.
  unfold load. destruct p as [| blk |]; try discriminate.
  destruct (0 <=? off) eqn:Ho; [| discriminate].
  destruct (0 <=? n) eqn:Hn; [| discriminate].
  destruct (off + n <=? Z.of_nat (length blk)) eqn:Hb; [| discriminate].
  apply Z.leb_le in Ho, Hn, Hb. cbn [andb]. intros H. inversion H.
  exists blk. unfold len. rewrite length_firstn, length_skipn.
  repeat split; lia.
Qed.

Lemma store_inv (p q : pointer) (off : Z) (cs : list cell) :
  store p off cs = Ok q ->
  exists blk blk',
    p = Live blk /\ q = Live blk' /\ len blk' = len blk /\
    0 <= off /\ off + len cs <= len blk.
Proof.
  unfold store. destruct p as [| blk |]; try discriminate.
  destruct (0 <=? off) eqn:Ho; [| discriminate].
  destruct (off + Z.of_nat (length cs) <=? Z.of_nat (length blk)) eqn:Hb;
    [| discriminate].
  apply Z.leb_le in Ho, Hb. cbn [andb]. intros H. inversion H.
  exists blk. eexists. split; [reflexivity |]. split; [reflexivity |].
  unfold len. split; [| lia].
  rewrite !length_app, length_firstn, length_skipn. lia.
Qed.

Lemma valid_intro (blk : list cell) (size pos : Z) :
  len blk = size -> size < SIZE_MOD -> 0 <= pos < SIZE_MOD ->
  valid {| m_data := Live blk; m_size := size; m_readpos := pos |}.
Proof. intros <- Hs Hp. now apply valid_live. Qed.

Lemma len_fresh (n : Z) : 0 <= n -> len (fresh n) = n.
Proof. intros H. unfold len. rewrite fresh_length. lia. Qed.

(** X12: the representation invariant survives every call that
    completes.  From a valid buffer: [SaveToFile] hands back the same
    buffer; a [LoadFromFile] that answers [SQ_OK] leaves a valid buffer with
    the read position it found; [SetData] leaves a valid buffer with the
    read position within the size; [AppendData] leaves a valid buffer, longer
    by [size], with the read position it found; [ReadData] leaves a valid
    buffer with the same storage and size and a read position that has not
    moved back and is within the size if it was. *)
Theorem completed_calls_keep_valid (this : Bytecode) :
  valid this ->
  (forall io filename r this',
     SaveToFile io this filename = Ok (r, this') -> this' = this) /\
  (forall io filename this',
     LoadFromFile io this filename = Ok (SQ_OK, this') ->
     valid this' /\ m_readpos this' = m_readpos this) /\
  (forall data size r this',
     size < SIZE_MOD ->
     SetData this data size = Ok (r, this') ->
     valid this' /\ cursor_ok this') /\
  (forall data size r this',
     size < SIZE_MOD ->
     AppendData this data size = Ok (r, this') ->
     valid this' /\ m_size this' = m_size this + size /\
     m_readpos this' = m_readpos this) /\
  (forall data size r data' this',
     ReadData this data size = Ok (r, data', this') ->
     valid this' /\ m_data this' = m_data this /\
     m_size this' = m_size this /\
     m_readpos this <= m_readpos this' /\
     (cursor_ok this -> cursor_ok this')).
Proof.
  intros Hv. destruct (valid_inv this Hv) as (Hm & Hr & Hshape).
  pose proof (valid_len_content this Hv) as L.
  split; [| split; [| split; [| split]]].
  - (* SaveToFile *)
    intros io filename r this' H. unfold SaveToFile in H.
    destruct (_ || _); [now inversion H |].
    destruct (fopen_wb io filename); [| now inversion H].
    apply bind_Ok in H. destruct H as (w & _ & H).
    destruct (w =? m_size this); now inversion H.
  - (* LoadFromFile *)
    intros io filename this' H. unfold LoadFromFile in H.
    apply bind_Ok in H. destruct H as (p & _ & H).
    destruct (fopen_rb io filename) as [ifile |]; [| discriminate].
    destruct (ftell_end ifile =? 0); [discriminate |].
    apply bind_Ok in H. destruct H as ([got p'] & Hf & H).
    unfold fread in Hf. apply bind_Ok in Hf. destruct Hf as (q & Hs & Hf).
    inversion Hf; subst got p'; clear Hf.
    apply store_inv in Hs.
    destruct Hs as (blk & blk' & Eb & -> & Hlen & _ & _).
    inversion Eb; subst blk; clear Eb.
    pose proof (to_size_t_range (ftell_end ifile)) as Hrange.
    rewrite len_fresh in Hlen by lia.
    destruct (_ =? _); inversion H; subst this'; cbn [m_readpos].
    split; [apply valid_intro; lia | reflexivity].
  - (* SetData *)
    intros data size r this' Hsize H. unfold SetData in H.
    apply bind_Ok in H. destruct H as (_ & _ & H).
    apply bind_Ok in H. destruct H as (p & Hc & H).
    unfold memcpy in Hc. apply bind_Ok in Hc. destruct Hc as (cs & Hl & Hs).
    apply load_inv in Hl. destruct Hl as (_ & _ & _ & Hn & _ & _).
    apply store_inv in Hs.
    destruct Hs as (blk & blk' & Eb & -> & Hlen & _ & _).
    inversion Eb; subst blk; clear Eb. rewrite len_fresh in Hlen by lia.
    inversion H; subst r this'. unfold cursor_ok. cbn [m_size m_readpos].
    split; [apply valid_intro; lia | lia].
  - (* AppendData *)
    intros data size r this' Hsize H. unfold AppendData in H.
    apply bind_Ok in H. destruct H as (p & Hp & H).
    apply bind_Ok in H. destruct H as (q & Hc & H).
    unfold memcpy in Hc. apply bind_Ok in Hc. destruct Hc as (cs & Hl & Hs).
    apply load_inv in Hl. destruct Hl as (_ & _ & _ & Hn & _ & Hcs).
    apply store_inv in Hs.
    destruct Hs as (blk & blk' & -> & -> & Hlen & _ & Hfit).
    pose proof (to_size_t_range (m_size this + size)) as Hrange.
    assert (Hsum : to_size_t (m_size this + size) = m_size this + size).
    { destruct Hshape as [[E Z0] | [E _]]; rewrite E in Hp; cbn in Hp.
      - rewrite Z0. apply to_size_t_small. lia.
      - inversion Hp; subst blk; clear Hp.
        assert (len (firstn (Z.to_nat (to_size_t (m_size this + size)))
                       (content this)
                     ++ fresh (to_size_t (m_size this + size)
                               - Z.of_nat (length (content this))))
                = to_size_t (m_size this + size)) as Hp.
        { unfold len in *. rewrite length_app, length_firstn, fresh_length.
          lia. }
        rewrite Hp in Hfit. unfold to_size_t in *.
        pose proof (Z.mod_le (m_size this + size) SIZE_MOD
                      ltac:(lia) SIZE_MOD_pos). lia. }
    assert (Hblk : len blk = m_size this + size).
    { destruct Hshape as [[E Z0] | [E _]]; rewrite E in Hp; cbn in Hp;
        inversion Hp; subst blk; clear Hp.
      - rewrite len_fresh by lia. lia.
      - unfold len in *. rewrite length_app, length_firstn, fresh_length.
        lia. }
    inversion H; subst r this'. cbn [m_size m_readpos]. rewrite Hsum.
    repeat split. apply valid_intro; lia.
  - (* ReadData *)
    intros data size r data' this' H. unfold ReadData in H.
    destruct (_ || _).
    { inversion H; subst. repeat split; auto; lia. }
    apply bind_Ok in H. destruct H as (d & Hc & H).
    unfold memcpy in Hc. apply bind_Ok in Hc. destruct Hc as (cs & Hl & _).
    apply load_inv in Hl. destruct Hl as (blk & E & _ & Hn & Hfit & _).
    assert (Hb : len blk = m_size this).
    { unfold content in L. rewrite E in L. exact L. }
    inversion H; subst r data' this'. unfold cursor_ok.
    cbn [m_data m_size m_readpos]. rewrite to_size_t_small by lia.
    rewrite E. repeat split; try lia. apply valid_intro; lia.
Qed.

(** ** The callbacks and negative counts *)

(** X14: [BytecodeReader] does not look at the sign of its count.  On a
    valid buffer with bytes left, a negative count no smaller than
    [m_size - 2^64] is converted to a request beyond what remains: with the
    read position below the count's magnitude the call delivers all that
    remains and answers its length; with the read position at or above it,
    the sum wraps and [memcpy] runs off the block. *)
Theorem BytecodeReader_negative_count (this : Bytecode) (dest : list cell)
    (size : Z) :
  valid this -> cursor_ok this ->
  empty this = false -> m_readpos this <> m_size this ->
  m_size this - SIZE_MOD <= size < 0 ->
  m_size this - m_readpos this <= len dest ->
  m_size this - m_readpos this <= SQ_MAX ->
  if m_readpos this <? - size
  then
    BytecodeReader this (Live dest) size
    = Ok (m_size this - m_readpos this,
          Live (skipn (Z.to_nat (m_readpos this)) (content this)
                ++ skipn (Z.to_nat (m_size this - m_readpos this)) dest),
          {| m_data := m_data this; m_size := m_size this;
             m_readpos := m_size this |})
  else BytecodeReader this (Live dest) size = Undefined.
Proof.
  intros Hv Hc He Hp Hs Hd Hq. unfold cursor_ok in Hc.
  destruct (valid_inv this Hv) as (Hm & Hr & _).
  pose proof (valid_len_content this Hv) as L.
  unfold BytecodeReader. rewrite to_size_t_wrap_down by lia.
  destruct (Z.ltb_spec (m_readpos this) (- size)) as [Hlow | Hhigh].
  - assert (Hmin : Z.min (size + SIZE_MOD) (m_size this - m_readpos this)
                   = m_size this - m_readpos this) by lia.
    destruct (ReadData_some this dest (size + SIZE_MOD) Hv Hc He Hp) as [HR _];
      try lia.
    rewrite HR, Hmin.
    rewrite firstn_all2
      by (rewrite length_skipn; unfold len in L; lia).
    do 4 f_equal. lia.
  - apply (ReadData_off_block_on_wrap this (Live dest) (size + SIZE_MOD));
      auto; lia.
Qed.

(** X15: [BytecodeWriter] does not look at the sign of its count either:
    a negative count is converted to a copy of [2^64 + size] bytes, which
    runs off any source shorter than that, whatever the buffer. *)
Theorem BytecodeWriter_negative_count (this : Bytecode) (src : list cell)
    (size : Z) :
  - SIZE_MOD <= size < 0 ->
  len src < SIZE_MOD + size ->
  BytecodeWriter this (Live src) size = Undefined.
Proof.
  intros Hs Hshort. unfold BytecodeWriter, AppendData.
  rewrite to_size_t_wrap_down by lia.
  destruct (if is_null (m_data this) then _ else _); [| reflexivity].
  cbn [bind]. unfold memcpy. rewrite load_off_block by lia. reflexivity.
Qed.

End WithSQInteger.

(** * The code on sample inputs, with a 64-bit [SQInteger] *)

(** C1: a buffer given three bytes, two of them read, then loaded from the
    four-byte file: the load answers [SQ_OK], the buffer holds the file's
    four bytes, and the read position is still 2, not 0. *)
Theorem LoadFromFile_keeps_read_position :
  exists this1 data this2 this3,
    SetData Bytecode_default (bytes abc) 3 = Ok (SQ_OK, this1) /\
    ReadData 64 this1 dest2 2 = Ok (2, data, this2) /\
    LoadFromFile sample_io this2 "code.nut" = Ok (SQ_OK, this3) /\
    content this3 = map Some [x0a; x0b; x0c; x0d] /\
    Size this3 = 4 /\
    m_readpos this3 = 2.
Proof. do 4 eexists. repeat split; reflexivity. Qed.

(** C2: the same buffer, with two of its three bytes read, satisfies
    [m_readpos <= m_size]; loading the one-byte file answers [SQ_OK] and
    leaves [m_size = 1] with [m_readpos = 2]. *)
Theorem LoadFromFile_breaks_cursor_ok :
  exists this1 data this2 this3,
    SetData Bytecode_default (bytes abc) 3 = Ok (SQ_OK, this1) /\
    ReadData 64 this1 dest2 2 = Ok (2, data, this2) /\
    cursor_ok this2 /\
    LoadFromFile sample_io this2 "tiny" = Ok (SQ_OK, this3) /\
    m_size this3 = 1 /\
    m_readpos this3 = 2 /\
    ~ cursor_ok this3.
Proof.
  do 4 eexists. repeat split; try reflexivity; unfold cursor_ok; cbn; lia.
Qed.

(** C3: a buffer holding three bytes, loaded from a path that does not
    open: the answer is [SQ_ERROR], yet [Size()] is still 3 and [Data()] is
    the freed pointer, not null; the buffer does not test as empty, and the
    next load frees that pointer a second time. *)
Theorem LoadFromFile_unopened_keeps_size :
  exists this1 this2,
    SetData Bytecode_default (bytes abc) 3 = Ok (SQ_OK, this1) /\
    fopen_rb sample_io "missing" = None /\
    LoadFromFile sample_io this1 "missing" = Ok (SQ_ERROR, this2) /\
    Size this2 = 3 /\
    Data this2 = Dangling /\
    empty this2 = false /\
    LoadFromFile sample_io this2 "code.nut" = Undefined.
Proof. do 2 eexists. repeat split; reflexivity. Qed.

(** C4: a valid buffer of three bytes with one read, so that two remain,
    asked for [SIZE_MAX] bytes: [m_readpos + size] wraps to 0, the test
    [m_readpos + size <= m_size] passes, [bytes_to_read] is [SIZE_MAX]
    instead of 2, and the [memcpy] runs off the block; converted to an
    [SQInteger] that count is [-1].  The same happens through
    [BytecodeReader] with the count [-1]. *)
Theorem ReadData_request_wraps :
  exists this1 data this2,
    SetData Bytecode_default (bytes abc) 3 = Ok (SQ_OK, this1) /\
    ReadData 64 this1 dest2 1 = Ok (1, data, this2) /\
    valid this2 /\ cursor_ok this2 /\ empty this2 = false /\
    m_size this2 - m_readpos this2 = 2 /\
    to_size_t (m_readpos this2 + SIZE_MAX) = 0 /\
    bytes_to_read this2 SIZE_MAX = SIZE_MAX /\
    to_SQInteger 64 (bytes_to_read this2 SIZE_MAX) = -1 /\
    ReadData 64 this2 data SIZE_MAX = Undefined /\
    BytecodeReader 64 this2 data (-1) = Undefined.
Proof.
  do 3 eexists. repeat split; try reflexivity; unfold cursor_ok; cbn; lia.
Qed.

(** The scenario the header's users run: three bytes appended to an empty
    buffer, read back two at a time; the second read is short, the third
    finds nothing left. *)
Example append_then_read_in_pairs :
  exists this1 data1 this2 data2 this3,
    AppendData 64 Bytecode_default (bytes abc) 3 = Ok (3, this1) /\
    Size this1 = 3 /\
    ReadData 64 this1 dest2 2 = Ok (2, data1, this2) /\
    data1 = bytes [x01; x02] /\
    ReadData 64 this2 data1 2 = Ok (1, data2, this3) /\
    data2 = bytes [x03; x02] /\
    ReadData 64 this3 data2 2 = Ok (-1, data2, this3).
Proof. do 5 eexists. repeat split; reflexivity. Qed.

(** ** The general statements at sample inputs *)

Lemma SetData_replaces_witness :
  exists this',
    SetData one_read (bytes abc) 2 = Ok (SQ_OK, this') /\
    m_data this' = Live (firstn (Z.to_nat 2) (map Some abc)) /\
    len (content this') = 2 /\
    Size this' = 2 /\
    m_readpos this' = 0.
Proof.
  apply (SetData_replaces one_read (map Some abc) 2);
    [reflexivity | unfold len; simpl; lia].
Defined.

Lemma AppendData_appends_witness :
  exists this',
    AppendData 64 one_read (bytes abc) (len abc) = Ok (len abc, this') /\
    Size this' = Size one_read + len abc /\
    firstn (Z.to_nat (Size one_read)) (content this') = content one_read /\
    skipn (Z.to_nat (Size one_read)) (content this') = map Some abc /\
    m_readpos this' = m_readpos one_read.
Proof.
  apply (AppendData_appends 64 one_read abc);
    [reflexivity | reflexivity |].
  change (SQ_MAX 64) with 9223372036854775807. unfold len. simpl. lia.
Defined.

Lemma SetData_drain_roundtrip_witness :
  exists this1 this2,
    SetData one_read (bytes abc) (len abc) = Ok (SQ_OK, this1) /\
    drain 64 this1 (Live [None; None]) [2; 2; 1; 2]
    = Ok (map Some abc, true, this2) /\
    forall data size, ReadData 64 this2 data size = Ok (-1, data, this2).
Proof.
  apply (SetData_drain_roundtrip 64 one_read abc [None; None] [2; 2; 1; 2]);
    reflexivity.
Defined.

Lemma SaveToFile_status_witness :
  (exists r,
     SaveToFile sample_io holding_abc "out" = Ok (r, holding_abc) /\
     (r = SQ_OK <->
      empty holding_abc = false /\
      exists ofile, fopen_wb sample_io "out" = Some ofile /\
        fwrite (m_data holding_abc) (m_size holding_abc) ofile
        = Ok (m_size holding_abc)) /\
     (r = SQ_ERROR <->
      empty holding_abc = true \/ fopen_wb sample_io "out" = None \/
      exists ofile, fopen_wb sample_io "out" = Some ofile /\
        short_write holding_abc ofile)) /\
  SaveToFile sample_io Bytecode_default "out" = Ok (SQ_ERROR, Bytecode_default).
Proof.
  apply (SaveToFile_status sample_io holding_abc "out"). reflexivity.
Defined.

Lemma SaveToFile_frame_witness :
  exists r this',
    SaveToFile sample_io holding_abc "out" = Ok (r, this') /\
    m_data this' = m_data holding_abc /\
    m_size this' = m_size holding_abc /\
    m_readpos this' = m_readpos holding_abc.
Proof.
  apply (SaveToFile_frame sample_io holding_abc "out"). reflexivity.
Defined.

Lemma callbacks_forward_witness :
  BytecodeReader 64 holding_abc dest2 2 = ReadData 64 holding_abc dest2 2 /\
  BytecodeWriter 64 holding_abc (bytes abc) 3
  = AppendData 64 holding_abc (bytes abc) 3.
Proof.
  split.
  - apply (callbacks_forward 64 holding_abc dest2 2).
    unfold SIZE_MOD. simpl. lia.
  - apply (callbacks_forward 64 holding_abc (bytes abc) 3).
    unfold SIZE_MOD. simpl. lia.
Defined.

(** ** The further properties at sample inputs *)

(** Closed side conditions, by evaluation. *)
Ltac evaluated :=
  repeat split;
  first [ reflexivity
        | vm_compute; first [reflexivity | discriminate
                             | intro; discriminate] ].

Lemma ReadData_delivers_witness :
  ReadData 64 holding_abc dest2 2
  = Ok (2, bytes [x01; x02],
        {| m_data := bytes abc; m_size := 3; m_readpos := 2 |})
  /\ 0 <= 2 /\ 0 + 2 <= 3.
Proof.
  refine (ReadData_delivers 64 holding_abc [None; None] 2 _ _ _ _ _ _);
    evaluated.
Defined.

Lemma ReadData_zero_request_witness :
  ReadData 64 holding_abc dest2 0 = Ok (0, dest2, holding_abc).
Proof.
  refine (ReadData_zero_request 64 holding_abc [None; None] _ _ _ _);
    evaluated.
Defined.

Lemma ReadData_wrapping_request_witness :
  bytes_to_read {| m_data := bytes abc; m_size := 3; m_readpos := 1 |}
    SIZE_MAX = SIZE_MAX /\
  ReadData 64 {| m_data := bytes abc; m_size := 3; m_readpos := 1 |}
    dest2 SIZE_MAX = Undefined.
Proof.
  refine (ReadData_wrapping_request 64
            {| m_data := bytes abc; m_size := 3; m_readpos := 1 |}
            dest2 SIZE_MAX _ _ _ _ _); evaluated.
Defined.

Lemma ReadData_stale_cursor_witness :
  bytes_to_read stale_cursor 1 = SIZE_MOD - (5 - 3) /\
  ReadData 64 stale_cursor dest2 1 = Undefined.
Proof.
  refine (ReadData_stale_cursor 64 stale_cursor dest2 1 _ _ _ _ _);
    evaluated.
Defined.

Lemma drain_delivers_rest_witness :
  drain 64 {| m_data := bytes abc; m_size := 3; m_readpos := 1 |}
    dest2 [2; 1; 2]
  = Ok ([Some x02; Some x03], true,
        {| m_data := bytes abc; m_size := 3; m_readpos := 3 |}).
Proof.
  refine (drain_delivers_rest 64
            {| m_data := bytes abc; m_size := 3; m_readpos := 1 |}
            [None; None] [2; 1; 2] _ _ _ _ _); evaluated.
Defined.

Lemma AppendData_twice_witness :
  exists this1 this2,
    AppendData 64 one_read (bytes [x01]) 1 = Ok (1, this1) /\
    AppendData 64 this1 (bytes [x02; x03]) 2 = Ok (2, this2) /\
    AppendData 64 one_read (bytes abc) 3 = Ok (1 + 2, this2).
Proof.
  refine (AppendData_twice 64 one_read [x01] [x02; x03] _ _ _); evaluated.
Defined.

Lemma AppendData_then_drain_witness :
  exists this1 this2,
    AppendData 64 one_read (bytes abc) 3 = Ok (3, this1) /\
    drain 64 this1 dest2 [2; 2; 2; 2] = Ok (map Some abc, true, this2) /\
    m_readpos this2 = Size this2 /\
    Size this2 = 1 + 3.
Proof.
  refine (AppendData_then_drain 64 one_read abc [None; None] [2; 2; 2; 2]
            _ _ _ _ _ _); evaluated.
Defined.


Lemma LoadFromFile_short_read_witness :
  LoadFromFile faulty_io holding_abc "cut"
  = Ok (SQ_ERROR,
        {| m_data := Live [Some x0a; Some x0b; None; None];
           m_size := 4; m_readpos := 0 |}).
Proof.
  refine (LoadFromFile_short_read faulty_io holding_abc "cut"
            {| ftell_end := 4; contents := [x0a; x0b] |} _ _ _ _);
    evaluated.
Defined.

Lemma LoadFromFile_null_buffer_failure_witness :
  LoadFromFile faulty_io Bytecode_default "void"
  = Ok (SQ_ERROR, Bytecode_default).
Proof.
  refine (LoadFromFile_null_buffer_failure faulty_io Bytecode_default "void"
            _ _); [reflexivity |].
  right. eexists. split; reflexivity.
Defined.

Lemma LoadFromFile_failure_double_free_witness :
  exists this',
    LoadFromFile faulty_io holding_abc "nowhere" = Ok (SQ_ERROR, this') /\
    Data this' = Dangling /\
    Size this' = Size holding_abc /\
    m_readpos this' = m_readpos holding_abc /\
    Bytecode_destructor holding_abc = Ok tt /\
    Bytecode_destructor this' = Undefined /\
    (forall data size, SetData this' data size = Undefined) /\
    (forall data size, AppendData 64 this' data size = Undefined) /\
    (forall io' name, LoadFromFile io' this' name = Undefined).
Proof.
  refine (LoadFromFile_failure_double_free 64 faulty_io holding_abc "nowhere"
            (map Some abc) _ _); [reflexivity |].
  left. reflexivity.
Defined.

Lemma completed_calls_keep_valid_witness :
  valid {| m_data := bytes abc; m_size := 3; m_readpos := 2 |} /\
  m_data {| m_data := bytes abc; m_size := 3; m_readpos := 2 |}
  = m_data holding_abc /\
  m_size {| m_data := bytes abc; m_size := 3; m_readpos := 2 |}
  = m_size holding_abc /\
  m_readpos holding_abc
  <= m_readpos {| m_data := bytes abc; m_size := 3; m_readpos := 2 |} /\
  (cursor_ok holding_abc ->
   cursor_ok {| m_data := bytes abc; m_size := 3; m_readpos := 2 |}).
Proof.
  destruct (completed_calls_keep_valid 64 holding_abc) as (_ & _ & _ & _ & H);
    [reflexivity |].
  apply (H dest2 2 2 (bytes [x01; x02])). reflexivity.
Defined.

Lemma SetData_zero_bytes_witness :
  exists this',
    SetData holding_abc (bytes abc) 0 = Ok (SQ_OK, this') /\
    Size this' = 0 /\
    (forall io filename,
       SaveToFile io this' filename = Ok (SQ_ERROR, this')) /\
    (forall data size, ReadData 64 this' data size = Ok (-1, data, this')).
Proof.
  refine (SetData_zero_bytes 64 holding_abc (map Some abc) _). reflexivity.
Defined.

Lemma BytecodeReader_negative_count_witness :
  BytecodeReader 64 holding_abc (Live [None; None; None]) (-1)
  = Ok (3, bytes abc, {| m_data := bytes abc; m_size := 3; m_readpos := 3 |}).
Proof.
  refine (BytecodeReader_negative_count 64 holding_abc [None; None; None] (-1)
            _ _ _ _ _ _ _); evaluated.
Defined.

Lemma BytecodeWriter_negative_count_witness :
  BytecodeWriter 64 one_read (bytes abc) (-1) = Undefined.
Proof.
  refine (BytecodeWriter_negative_count 64 one_read (map Some abc) (-1) _ _);
    evaluated.
Defined.

End Sqrat.
